(** * A shallow embedding of the data-lake ETL job ([etl.py])

    The job reads two JSON datasets with Spark, derives five tables and
    writes them as parquet files.  Spark DataFrames are modelled as lists of
    rows; a nullable column is an [option] ([None] is SQL null).  Doubles
    ([duration], [length], coordinates) are modelled by their exact value as
    canonical rationals [Qc]: every finite double is a dyadic rational and
    Spark compares doubles by value.  The order of the rows of a DataFrame is
    not fixed by Spark: it is whatever order the execution produces, so the
    input lists below stand for one such order. *)

From Stdlib Require Import Ascii String List ZArith QArith Qcanon Permutation Bool Lia.
Import ListNotations.
Open Scope Z_scope.

(* ------------------------------------------------------------------ *)
(** ** Source records (schema-on-read JSON) *)

Definition dbl := Qc.

Module Catalog.
(** One record of [song_data/*/*/*/*.json]. *)
Record t := mk {
  song_id : option string;
  title : option string;
  artist_id : option string;
  artist_name : option string;
  artist_location : option string;
  artist_latitude : option dbl;
  artist_longitude : option dbl;
  year : option Z;
  duration : option dbl
}.
End Catalog.

Module Log.
(** One record of [log_data/*.json]; [userId] is a JSON string, empty for
    logged-out interactions. *)
Record t := mk {
  artist : option string;
  firstName : option string;
  gender : option string;
  lastName : option string;
  length : option dbl;
  level : option string;
  location : option string;
  page : option string;
  sessionId : option Z;
  song : option string;
  ts : option Z;
  userAgent : option string;
  userId : option string
}.
End Log.

(** Wall-clock fields of a Spark timestamp in the session time zone. *)
Record civil := mkcivil {
  cy : Z; cmo : Z; cd : Z; ch : Z; cmi : Z; cs : Z
}.

(* ------------------------------------------------------------------ *)
(** ** Output rows *)

Module SongsRow.
Record t := mk {
  song_id : option string;
  title : option string;
  artist_name : option string;
  artist_id : option string;
  year : option Z;
  duration : option dbl
}.
End SongsRow.

Module ArtistsRow.
Record t := mk {
  artist_id : option string;
  name : option string;
  location : option string;
  latitude : option dbl;
  longitude : option dbl
}.
End ArtistsRow.

Module UsersRow.
Record t := mk {
  userId : option string;
  firstName : option string;
  lastName : option string;
  gender : option string;
  level : option string
}.
End UsersRow.

Module TimeRow.
Record t := mk {
  datetime : option civil;
  Hour : option Z;
  DOW : option string;
  DOM : option Z;
  DOY : option Z;
  Month : option string;
  year : option Z;
  week : option Z
}.
End TimeRow.

Module SongplaysRow.
Record t := mk {
  timestamp : option string;
  user_id : option string;
  level : option string;
  song_id : option string;
  artist_id : option string;
  session_id : option Z;
  location : option string;
  user_agent : option string;
  month : option string;
  year : option Z;
  songplay_id : Z
}.
End SongplaysRow.

(* ------------------------------------------------------------------ *)
(** ** Decidable equality of values and rows *)

Definition opt_dec {A} (d : forall x y : A, {x = y} + {x <> y})
  (x y : option A) : {x = y} + {x <> y}.
Proof. decide equality. Defined.

Definition str_dec := opt_dec string_dec.
Definition z_dec := opt_dec Z.eq_dec.
Definition dbl_dec := opt_dec Qc_eq_dec.

Definition civil_dec (x y : civil) : {x = y} + {x <> y}.
Proof. decide equality; apply Z.eq_dec. Defined.

Definition songs_row_dec (x y : SongsRow.t) : {x = y} + {x <> y}.
Proof. decide equality; auto using str_dec, z_dec, dbl_dec. Defined.

Definition artists_row_dec (x y : ArtistsRow.t) : {x = y} + {x <> y}.
Proof. decide equality; auto using str_dec, dbl_dec. Defined.

Definition users_row_dec (x y : UsersRow.t) : {x = y} + {x <> y}.
Proof. decide equality; auto using str_dec. Defined.

Definition time_row_dec (x y : TimeRow.t) : {x = y} + {x <> y}.
Proof.
  decide equality; auto using str_dec, z_dec; apply (opt_dec civil_dec).
Defined.

(** SQL [=]: null on either side is never equal (the predicate is null,
    which [filter] and [join] treat as false). *)
Definition sql_eq {A} (d : forall x y : A, {x = y} + {x <> y})
  (x y : option A) : bool :=
  match x, y with
  | Some a, Some b => if d a b then true else false
  | _, _ => false
  end.

(* ------------------------------------------------------------------ *)
(** ** DataFrame operations *)

(** [dropDuplicates(subset)]: one row per value of the key columns (null
    keys compare equal, as in a group by); the row kept is the first one
    met in the execution order. *)
Fixpoint drop_dups_by {A K} (kd : forall x y : K, {x = y} + {x <> y})
  (key : A -> K) (seen : list K) (l : list A) : list A :=
  match l with
  | [] => []
  | x :: l' =>
      if in_dec kd (key x) seen then drop_dups_by kd key seen l'
      else x :: drop_dups_by kd key (key x :: seen) l'
  end.

Definition dropDuplicates_on {A K} (kd : forall x y : K, {x = y} + {x <> y})
  (key : A -> K) (l : list A) : list A :=
  drop_dups_by kd key [] l.

(** [dropDuplicates()] and [SELECT DISTINCT]: the key is the whole row. *)
Definition dropDuplicates {A} (d : forall x y : A, {x = y} + {x <> y})
  (l : list A) : list A :=
  dropDuplicates_on d (fun x => x) l.

(** [left.join(right, cond, 'left_outer')]: every left row is paired with
    each right row satisfying [cond]; a left row without any is kept once,
    paired with nulls. *)
Definition left_outer_join {A B} (cond : A -> B -> bool) (left : list A)
  (right : list B) : list (A * option B) :=
  flat_map (fun a =>
    match filter (cond a) right with
    | [] => [(a, None)]
    | ms => map (fun b => (a, Some b)) ms
    end) left.

(* ------------------------------------------------------------------ *)
(** ** process_song_data *)

(** [df.select('song_id', 'title', 'artist_name', 'artist_id', 'year',
    'duration')] *)
Definition songs_select (r : Catalog.t) : SongsRow.t :=
  SongsRow.mk (Catalog.song_id r) (Catalog.title r) (Catalog.artist_name r)
    (Catalog.artist_id r) (Catalog.year r) (Catalog.duration r).

(** [... .dropDuplicates(['song_id'])] *)
Definition songs_table (df : list Catalog.t) : list SongsRow.t :=
  dropDuplicates_on str_dec SongsRow.song_id (map songs_select df).

(** [SELECT distinct artist_id, artist_name as name, artist_location as
    location, artist_latitude as latitude, artist_longitude as longitude
    FROM songs] over the temp view of the whole [df]. *)
Definition artists_select (r : Catalog.t) : ArtistsRow.t :=
  ArtistsRow.mk (Catalog.artist_id r) (Catalog.artist_name r)
    (Catalog.artist_location r) (Catalog.artist_latitude r)
    (Catalog.artist_longitude r).

Definition artists_table (df : list Catalog.t) : list ArtistsRow.t :=
  dropDuplicates artists_row_dec (map artists_select df).

(* ------------------------------------------------------------------ *)
(** ** Calendar fields of [date_format] and [weekofyear] *)

(** Days since 1970-01-01 of a proleptic Gregorian date. *)
Definition days_from_civil (y m d : Z) : Z :=
  let y' := if m <=? 2 then y - 1 else y in
  let era := y' / 400 in
  let yoe := y' - era * 400 in
  let mp := if m >? 2 then m - 3 else m + 9 in
  let doy := (153 * mp + 2) / 5 + d - 1 in
  let doe := yoe * 365 + yoe / 4 - yoe / 100 + doy in
  era * 146097 + doe - 719468.

Definition day_of_year (y m d : Z) : Z :=
  days_from_civil y m d - days_from_civil y 1 1 + 1.

(** ISO day of week, Monday = 1 .. Sunday = 7. *)
Definition iso_dow (y m d : Z) : Z := (days_from_civil y m d + 3) mod 7 + 1.

Definition raw_week (y m d : Z) : Z :=
  (day_of_year y m d - iso_dow y m d + 10) / 7.

Definition weeks_in_year (y : Z) : Z := raw_week y 12 28.

(** [weekofyear]: ISO-8601 week number. *)
Definition iso_week (y m d : Z) : Z :=
  let w := raw_week y m d in
  if w <? 1 then weeks_in_year (y - 1)
  else if w >? weeks_in_year y then 1 else w.

Definition month_names : list string :=
  ["January"; "February"; "March"; "April"; "May"; "June"; "July";
   "August"; "September"; "October"; "November"; "December"]%string.

Definition dow_names : list string :=
  ["Sun"; "Mon"; "Tue"; "Wed"; "Thu"; "Fri"; "Sat"]%string.

(** [date_format(dt, 'H')], ['E'], ['d'], ['D'], ['MMMM'], ['y'] and
    [weekofyear(dt)], with the integer casts of the code. *)
Definition fmt_H (c : civil) : Z := ch c.
Definition fmt_E (c : civil) : string :=
  nth (Z.to_nat ((days_from_civil (cy c) (cmo c) (cd c) + 4) mod 7))
    dow_names ""%string.
Definition fmt_d (c : civil) : Z := cd c.
Definition fmt_D (c : civil) : Z := day_of_year (cy c) (cmo c) (cd c).
Definition fmt_MMMM (c : civil) : string :=
  nth (Z.to_nat (cmo c - 1)) month_names ""%string.
Definition fmt_y (c : civil) : Z := cy c.
Definition weekofyear (c : civil) : Z := iso_week (cy c) (cmo c) (cd c).

(* ------------------------------------------------------------------ *)
(** ** Partitioned parquet writes and the output store *)

Inductive pval := PStr (s : string) | PInt (z : Z).

(** A partition directory: [key=value] segments; a null value goes to
    Hive's default partition. *)
Definition part_dir := list (string * option pval).

(** Spark writes an empty string partition value to the default partition,
    like null. *)
Definition pv_str (o : option string) : option pval :=
  match o with
  | Some v => if String.eqb v "" then None else Some (PStr v)
  | None => None
  end.
Definition pv_int (o : option Z) : option pval := option_map PInt o.

(** [df.write.partitionBy(keys...).parquet(path)]: each row is stored
    under the directory built from its partition values. *)
Definition write_partitioned {A} (part : A -> part_dir) (rows : list A)
  : list (part_dir * A) :=
  map (fun r => (part r, r)) rows.

(** The output bucket.  Every write uses [mode='overwrite'].  The code
    writes the songs under [output_data + 'songs/songs.parquet'] and reads
    them from [output_data + '/songs/songs.parquet']; Hadoop's [Path]
    collapses the doubled slash, so both name the same location. *)
Record Sink := mkSink {
  songs_out : option (list (part_dir * SongsRow.t));
  artists_out : option (list ArtistsRow.t);
  users_out : option (list UsersRow.t);
  time_out : option (list (part_dir * TimeRow.t));
  songplays_out : option (list (part_dir * SongplaysRow.t))
}.

Definition empty_sink : Sink := mkSink None None None None None.

Definition set_songs s v :=
  mkSink (Some v) (artists_out s) (users_out s) (time_out s) (songplays_out s).
Definition set_artists s v :=
  mkSink (songs_out s) (Some v) (users_out s) (time_out s) (songplays_out s).
Definition set_users s v :=
  mkSink (songs_out s) (artists_out s) (Some v) (time_out s) (songplays_out s).
Definition set_time s v :=
  mkSink (songs_out s) (artists_out s) (users_out s) (Some v) (songplays_out s).
(** A failed overwrite of songplays: the old output was cleared before the
    write job failed. *)
Definition clear_songplays s :=
  mkSink (songs_out s) (artists_out s) (users_out s) (time_out s) None.
Definition set_songplays s v :=
  mkSink (songs_out s) (artists_out s) (users_out s) (time_out s) (Some v).

(** [partitionBy('year', 'artist_id')] *)
Definition songs_part (r : SongsRow.t) : part_dir :=
  [("year", pv_int (SongsRow.year r));
   ("artist_id", pv_str (SongsRow.artist_id r))]%string.

(** [partitionBy("year", "month")]: Spark resolves ["month"] against the
    columns case-insensitively (the [Month] alias of the time table); the
    directories are named as in the [partitionBy] call, [month=...]. *)
Definition time_part (r : TimeRow.t) : part_dir :=
  [("year", pv_int (TimeRow.year r)); ("month", pv_str (TimeRow.Month r))]%string.

Definition songplays_part (r : SongplaysRow.t) : part_dir :=
  [("year", pv_int (SongplaysRow.year r));
   ("month", pv_str (SongplaysRow.month r))]%string.

(** [process_song_data]: write the songs table, then the artists table. *)
Definition process_song_data (df : list Catalog.t) (s : Sink) : Sink :=
  let s1 := set_songs s (write_partitioned songs_part (songs_table df)) in
  set_artists s1 (artists_table df).

(* ------------------------------------------------------------------ *)
(** ** process_log_data *)

Module Enriched.
(** A log row after the two [withColumn] calls. *)
Record t := mk {
  ev : Log.t;
  timestamp : option string;
  datetime : option civil
}.
End Enriched.

(** [df.filter(df.page == "NextSong")] *)
Definition is_play (e : Log.t) : bool :=
  sql_eq string_dec (Log.page e) (Some "NextSong"%string).

(** [df.select('userId', 'firstName', 'lastName', 'gender', 'level')] *)
Definition users_select (e : Log.t) : UsersRow.t :=
  UsersRow.mk (Log.userId e) (Log.firstName e) (Log.lastName e)
    (Log.gender e) (Log.level e).

(** [... .dropDuplicates()] over the unfiltered [df]. *)
Definition users_table (df : list Log.t) : list UsersRow.t :=
  dropDuplicates users_row_dec (map users_select df).

(** The condition of the songplays join. *)
Definition join_cond (e : Enriched.t) (s : SongsRow.t) : bool :=
  sql_eq string_dec (Log.artist (Enriched.ev e)) (SongsRow.artist_name s) &&
  sql_eq string_dec (Log.song (Enriched.ev e)) (SongsRow.title s) &&
  sql_eq Qc_eq_dec (Log.length (Enriched.ev e)) (SongsRow.duration s).

(** [monotonically_increasing_id()]: the id of the [n]-th row of the
    projection, as handed out by the run (it depends on how Spark
    partitions the rows). *)
Fixpoint with_ids {A B} (gen : nat -> Z) (mk : A -> Z -> B) (n : nat)
  (l : list A) : list B :=
  match l with
  | [] => []
  | x :: l' => mk x (gen n) :: with_ids gen mk (S n) l'
  end.

(** [df_filtered.select('datetime', date_format('datetime', 'H')...,
    weekofyear('datetime'))]: every column is computed from [datetime]. *)
Definition time_columns (dt : option civil) : TimeRow.t :=
  TimeRow.mk dt (option_map fmt_H dt) (option_map fmt_E dt)
    (option_map fmt_d dt) (option_map fmt_D dt) (option_map fmt_MMMM dt)
    (option_map fmt_y dt) (option_map weekofyear dt).

(** *** Reading a partitioned table back

    [spark.read.parquet] takes the partition columns from the directory
    names and infers their types: a default-partition value is null, a
    column whose values are all null gets the null (void) type, and a value
    that parses as a number, date or timestamp makes the column numeric or
    temporal.  A value that starts with an ASCII letter other than I, N and
    T (which could begin "Infinity", "NaN" or a time) is always read back as
    the same string. *)

Definition dir_value (k : string) (p : part_dir) : option pval :=
  match find (fun kv => String.eqb (fst kv) k) p with
  | Some (_, v) => v
  | None => None
  end.

Definition plain (v : string) : bool :=
  match v with
  | String c _ =>
      let n := Ascii.nat_of_ascii c in
      ((Nat.leb 65 n && Nat.leb n 90) || (Nat.leb 97 n && Nat.leb n 122)) &&
      negb (existsb (Ascii.eqb c) ["I"; "N"; "T"; "i"; "n"; "t"]%char)
  | EmptyString => false
  end.

Definition pval_plain (v : option pval) : bool :=
  match v with
  | None => true
  | Some (PStr x) => plain x
  | Some (PInt _) => false
  end.

Definition pval_string (v : option pval) : option string :=
  match v with Some (PStr x) => Some x | _ => None end.

Definition pval_int (v : option pval) : option Z :=
  match v with Some (PInt z) => Some z | _ => None end.

Definition is_null {A} (o : option A) : bool :=
  match o with None => true | Some _ => false end.

Section SessionTimeZone.
(** [from_unixtime] renders epoch seconds as ["yyyy-MM-dd HH:mm:ss"] in the
    session time zone and [to_timestamp] parses such a string back (null
    when it does not parse); both depend on the session time zone, so they
    are parameters of the job. *)
Variable from_unixtime : Z -> string.
Variable to_timestamp : string -> option civil.
(** Spark's type inference and cast of the [artist_id] partition column of
    the songs table when some value is not plain: it depends on the Spark
    version, so it is a parameter. *)
Variable infer_artist_ids : list (option pval) -> list (option string).

(** The songs table as [spark.read.parquet] returns it: [year] and
    [artist_id] come from the directory names. *)
Definition read_back_songs (files : list (part_dir * SongsRow.t))
  : list SongsRow.t :=
  let ids := map (fun f => dir_value "artist_id" (fst f)) files in
  let strs := if forallb pval_plain ids then map pval_string ids
              else infer_artist_ids ids in
  map (fun fa =>
         let '((p, r), a) := fa in
         SongsRow.mk (SongsRow.song_id r) (SongsRow.title r)
           (SongsRow.artist_name r) a (pval_int (dir_value "year" p))
           (SongsRow.duration r))
      (combine files strs).

(** [withColumn('timestamp', from_unixtime(df.ts/1000))] then
    [withColumn('datetime', to_timestamp('timestamp'))].  [ts/1000] is a
    double, cast to a long (truncation toward zero) by [from_unixtime]; for
    the epoch-millisecond range the double division does not cross an
    integer, so this is [Z.quot]. *)
Definition enrich (e : Log.t) : Enriched.t :=
  let tsc := option_map (fun t => from_unixtime (Z.quot t 1000)) (Log.ts e) in
  Enriched.mk e tsc (match tsc with Some s => to_timestamp s | None => None end).

(** [df] and [df_filtered] after the timestamp columns. *)
Definition df_with_time (df : list Log.t) : list Enriched.t := map enrich df.
Definition df_filtered (df : list Log.t) : list Enriched.t :=
  map enrich (filter is_play df).

Definition time_select (e : Enriched.t) : TimeRow.t :=
  time_columns (Enriched.datetime e).

Definition time_table (df : list Log.t) : list TimeRow.t :=
  dropDuplicates time_row_dec (map time_select (df_filtered df)).

(** The [select] over the joined rows; [song_id] and [artist_id] come from
    [song_df], so they are null when no song matched. *)
Definition songplays_select (j : Enriched.t * option SongsRow.t) (id : Z)
  : SongplaysRow.t :=
  let (e, so) := j in
  let l := Enriched.ev e in
  let dt := Enriched.datetime e in
  SongplaysRow.mk (Enriched.timestamp e) (Log.userId l) (Log.level l)
    (match so with Some s => SongsRow.song_id s | None => None end)
    (match so with Some s => SongsRow.artist_id s | None => None end)
    (Log.sessionId l) (Log.location l) (Log.userAgent l)
    (option_map fmt_MMMM dt) (option_map fmt_y dt) id.

Definition joined_df (df : list Log.t) (song_df : list SongsRow.t)
  : list (Enriched.t * option SongsRow.t) :=
  left_outer_join join_cond (df_filtered df) song_df.

Definition songplays_table (gen : nat -> Z) (df : list Log.t)
  (song_df : list SongsRow.t) : list SongplaysRow.t :=
  with_ids gen songplays_select 0 (joined_df df song_df).

(** Result of a job step: it completes, or Spark raises and the job stops
    with what it had written so far. *)
Inductive outcome := Done (s : Sink) | Failed (msg : string) (s : Sink).

(** [process_log_data]: write users, then time, then read the songs back
    from the bucket and write songplays.  [spark.read.parquet] fails when
    the path does not exist, and when it holds no data file (an empty
    partitioned write leaves none), as no schema can be inferred.  When
    every songs row sits in the default artist_id partition, the read-back
    [artist_id] column has the void type and the songplays parquet write
    rejects it; the overwrite has cleared the old songplays output by then. *)
Definition process_log_data (gen : nat -> Z) (df : list Log.t) (s : Sink)
  : outcome :=
  let s1 := set_users s (users_table df) in
  let s2 := set_time s1 (write_partitioned time_part (time_table df)) in
  match songs_out s2 with
  | None => Failed "Path does not exist: songs/songs.parquet" s2
  | Some [] =>
      Failed "Unable to infer schema for Parquet. It must be specified manually." s2
  | Some files =>
      if forallb (fun f => is_null (dir_value "artist_id" (fst f))) files then
        Failed "Parquet data source does not support void data type." (clear_songplays s2)
      else
        let song_df := read_back_songs files in
        Done (set_songplays s2
                (write_partitioned songplays_part (songplays_table gen df song_df)))
  end.

(** [main]: the song job, then the log job, on the current bucket. *)
Definition main (gen : nat -> Z) (song_data : list Catalog.t)
  (log_data : list Log.t) (s : Sink) : outcome :=
  process_log_data gen log_data (process_song_data song_data s).

End SessionTimeZone.

(* ------------------------------------------------------------------ *)
(** ** A UTC session, for concrete runs *)

(** Calendar date of a day count since 1970-01-01. *)
Definition civil_from_days (z : Z) : Z * Z * Z :=
  let z' := z + 719468 in
  let era := z' / 146097 in
  let doe := z' - era * 146097 in
  let yoe := (doe - doe / 1460 + doe / 36524 - doe / 146096) / 365 in
  let doy := doe - (365 * yoe + yoe / 4 - yoe / 100) in
  let mp := (5 * doy + 2) / 153 in
  let d := doy - (153 * mp + 2) / 5 + 1 in
  let m := if mp <? 10 then mp + 3 else mp - 9 in
  ((if m <=? 2 then yoe + era * 400 + 1 else yoe + era * 400), m, d).

Definition utc_civil (s : Z) : civil :=
  let '(y, m, d) := civil_from_days (s / 86400) in
  let r := s mod 86400 in
  mkcivil y m d (r / 3600) ((r mod 3600) / 60) (r mod 60).

Fixpoint dec_fixed (w : nat) (n : Z) : string :=
  match w with
  | O => EmptyString
  | S w' => (dec_fixed w' (n / 10) ++
             String (Ascii.ascii_of_nat (48 + Z.to_nat (n mod 10))) EmptyString)%string
  end.

Definition format_civil (c : civil) : string :=
  (dec_fixed 4 (cy c) ++ "-" ++ dec_fixed 2 (cmo c) ++ "-" ++ dec_fixed 2 (cd c)
   ++ " " ++ dec_fixed 2 (ch c) ++ ":" ++ dec_fixed 2 (cmi c) ++ ":"
   ++ dec_fixed 2 (cs c))%string.

(** [from_unixtime] in a UTC session (years 0..9999). *)
Definition utc_from_unixtime (s : Z) : string := format_civil (utc_civil s).

Fixpoint parse_digits (s : string) (acc : Z) : option Z :=
  match s with
  | EmptyString => Some acc
  | String c s' =>
      let n := Z.of_nat (Ascii.nat_of_ascii c) - 48 in
      if (0 <=? n) && (n <=? 9) then parse_digits s' (acc * 10 + n) else None
  end.

Definition field (s : string) (off len : nat) : option Z :=
  parse_digits (substring off len s) 0.

(** [to_timestamp] of a ["yyyy-MM-dd HH:mm:ss"] string in a UTC session. *)
Definition utc_to_timestamp (s : string) : option civil :=
  if Nat.eqb (String.length s) 19 then
    match field s 0 4, field s 5 2, field s 8 2, field s 11 2, field s 14 2,
          field s 17 2 with
    | Some y, Some mo, Some d, Some h, Some mi, Some se =>
        Some (mkcivil y mo d h mi se)
    | _, _, _, _, _, _ => None
    end
  else None.

(** The [artist_id] type inference used in the concrete runs below; all
    their artist_ids are plain, so it is never applied there. *)
Definition ids_as_strings (ids : list (option pval)) : list (option string) :=
  map pval_string ids.

(** A songs row as read back when the artist_id column is plain: an empty
    artist_id comes back null. *)
Definition songs_row_read (r : SongsRow.t) : SongsRow.t :=
  SongsRow.mk (SongsRow.song_id r) (SongsRow.title r) (SongsRow.artist_name r)
    (pval_string (pv_str (SongsRow.artist_id r))) (SongsRow.year r)
    (SongsRow.duration r).

(** The row count of the songplays output of a job outcome. *)
Definition songplays_count (o : outcome) : option nat :=
  match o with
  | Done s => option_map (@List.length _) (songplays_out s)
  | Failed _ _ => None
  end.

Definition outcome_sink (o : outcome) : Sink :=
  match o with Done s => s | Failed _ s => s end.

(** [song_id] and [artist_id] of the songplays output, in row order. *)
Definition songplays_ids (o : outcome) : option (list (option string * option string)) :=
  option_map (map (fun pr => (SongplaysRow.song_id (snd pr), SongplaysRow.artist_id (snd pr))))
    (songplays_out (outcome_sink o)).

(** A songplays row with its surrogate id cleared. *)
Definition drop_id (r : SongplaysRow.t) : SongplaysRow.t :=
  SongplaysRow.mk (SongplaysRow.timestamp r) (SongplaysRow.user_id r)
    (SongplaysRow.level r) (SongplaysRow.song_id r) (SongplaysRow.artist_id r)
    (SongplaysRow.session_id r) (SongplaysRow.location r)
    (SongplaysRow.user_agent r) (SongplaysRow.month r) (SongplaysRow.year r) 0.

(** Ids handed out by [monotonically_increasing_id] in a one-partition run. *)
Definition ids_one_partition (n : nat) : Z := Z.of_nat n.

(** *** Example inputs *)

Open Scope string_scope.

Definition d210_5 : dbl := Q2Qc (421 # 2).

Definition song_S1 : Catalog.t :=
  Catalog.mk (Some "S1") (Some "Y") (Some "A1") (Some "X") (Some "Cairo")
    None None (Some 2018) (Some d210_5).
(** Another catalog record with the same song_id, from the same artist but
    a different location. *)
Definition song_S1_giza : Catalog.t :=
  Catalog.mk (Some "S1") (Some "Y") (Some "A1") (Some "X") (Some "Giza")
    None None (Some 2018) (Some d210_5).
(** Another catalog record with the same song_id and another title. *)
Definition song_S1_w : Catalog.t :=
  Catalog.mk (Some "S1") (Some "W") (Some "A1") (Some "X") (Some "Cairo")
    None None (Some 2018) (Some d210_5).
(** A different song with the same (artist_name, title, duration). *)
Definition song_S2 : Catalog.t :=
  Catalog.mk (Some "S2") (Some "Y") (Some "A2") (Some "X") None
    None None (Some 2019) (Some d210_5).

Definition play_XY : Log.t :=
  Log.mk (Some "X") (Some "Ann") (Some "F") (Some "Lee") (Some d210_5)
    (Some "free") (Some "NYC") (Some "NextSong") (Some 7) (Some "Y")
    (Some 1541903636796) (Some "Mozilla") (Some "10").
Definition play_XY_paid : Log.t :=
  Log.mk (Some "X") (Some "Ann") (Some "F") (Some "Lee") (Some d210_5)
    (Some "paid") (Some "NYC") (Some "NextSong") (Some 9) (Some "Y")
    (Some 1542903636796) (Some "Mozilla") (Some "10").
Definition play_miss : Log.t :=
  Log.mk (Some "X") (Some "Ann") (Some "F") (Some "Lee") (Some d210_5)
    (Some "free") (Some "NYC") (Some "NextSong") (Some 7) (Some "Z")
    (Some 1541903700796) (Some "Mozilla") (Some "10").
(** A play whose length is missing. *)
Definition play_no_length : Log.t :=
  Log.mk (Some "X") (Some "Ann") (Some "F") (Some "Lee") None
    (Some "free") (Some "NYC") (Some "NextSong") (Some 7) (Some "Y")
    (Some 1541903900796) (Some "Mozilla") (Some "10").
(** A logged-out interaction: empty userId, no name. *)
Definition home_logged_out : Log.t :=
  Log.mk None None None None None (Some "free") None (Some "Home") (Some 8)
    None (Some 1541903800000) None (Some "").

(* ------------------------------------------------------------------ *)
(** ** Facts about [dropDuplicates] *)

Section DropDups.
Context {A K : Type} (kd : forall x y : K, {x = y} + {x <> y}) (key : A -> K).

Lemma drop_dups_by_sound : forall l seen x,
  In x (drop_dups_by kd key seen l) -> In x l /\ ~ In (key x) seen.
Proof.
  induction l as [|a l IH]; simpl; intros seen x H; [contradiction|].
  destruct (in_dec kd (key a) seen) as [Hin|Hnin].
  - apply IH in H as [H1 H2]. auto.
  - destruct H as [<-|H]; [auto|].
    apply IH in H as [H1 H2]. split; [auto|]. intros Hs; apply H2; right; auto.
Qed.

Lemma drop_dups_by_nodup : forall l seen,
  NoDup (map key (drop_dups_by kd key seen l)).
Proof.
  induction l as [|a l IH]; simpl; intros seen; [constructor|].
  destruct (in_dec kd (key a) seen) as [Hin|Hnin]; [apply IH|].
  simpl. constructor; [|apply IH].
  intros Hm. apply in_map_iff in Hm as [y [Hy Hyin]].
  apply drop_dups_by_sound in Hyin as [_ Hy2]. apply Hy2. rewrite Hy. left; auto.
Qed.

Lemma drop_dups_by_complete : forall l seen x,
  In x l -> In (key x) seen \/
            exists y, In y (drop_dups_by kd key seen l) /\ key y = key x.
Proof.
  induction l as [|a l IH]; simpl; intros seen x H; [contradiction|].
  destruct (in_dec kd (key a) seen) as [Hin|Hnin].
  - destruct H as [<-|H]; [left; auto|]. apply IH; auto.
  - destruct H as [<-|H]; [right; exists a; split; [left|]; auto|].
    destruct (IH (key a :: seen) x H) as [[Hk|Hk]|[y [Hy1 Hy2]]].
    + right. exists a. split; [left|]; auto.
    + left; auto.
    + right. exists y. split; [right|]; auto.
Qed.

Lemma dropDuplicates_on_keys : forall l k,
  In k (map key (dropDuplicates_on kd key l)) <-> In k (map key l).
Proof.
  intros l k. unfold dropDuplicates_on. split; intros H.
  - apply in_map_iff in H as [y [<- Hy]].
    apply drop_dups_by_sound in Hy as [Hy _]. apply in_map; auto.
  - apply in_map_iff in H as [x [<- Hx]].
    destruct (drop_dups_by_complete l [] x Hx) as [[]|[y [Hy1 Hy2]]].
    rewrite <- Hy2. apply in_map; auto.
Qed.

End DropDups.

Lemma dropDuplicates_In {A} (d : forall x y : A, {x = y} + {x <> y}) l x :
  In x (dropDuplicates d l) <-> In x l.
Proof.
  pose proof (dropDuplicates_on_keys d (fun y => y) l x) as H.
  rewrite !map_id in H. exact H.
Qed.

Lemma dropDuplicates_NoDup {A} (d : forall x y : A, {x = y} + {x <> y}) l :
  NoDup (dropDuplicates d l).
Proof.
  pose proof (drop_dups_by_nodup d (fun y => y) l []) as H.
  rewrite map_id in H. exact H.
Qed.

(** Two executions presenting the same rows in any orders give the same
    distinct rows, up to order. *)
Lemma dropDuplicates_perm {A} (d : forall x y : A, {x = y} + {x <> y}) l1 l2 :
  (forall x, In x l1 <-> In x l2) ->
  Permutation (dropDuplicates d l1) (dropDuplicates d l2).
Proof.
  intros H. apply NoDup_Permutation; try apply dropDuplicates_NoDup.
  intros x. rewrite !dropDuplicates_In. apply H.
Qed.

(** A row determined by one of its columns: distinct rows have distinct
    values in that column. *)
Lemma NoDup_map_determined {A K} (key : A -> K) (g : K -> A) :
  forall l, NoDup l -> (forall r, In r l -> r = g (key r)) -> NoDup (map key l).
Proof.
  induction l as [|a l IH]; simpl; intros Hnd Hg; [constructor|].
  inversion Hnd as [|? ? Ha Hl]; subst. constructor.
  - intros Hm. apply in_map_iff in Hm as [b [Hb Hbin]].
    assert (Hba : b = a).
    { transitivity (g (key b)); [apply Hg; right; auto|].
      rewrite Hb. symmetry. apply Hg. left; auto. }
    subst b. contradiction.
  - apply IH; auto.
Qed.

(* ------------------------------------------------------------------ *)
(** ** Facts about the left outer join *)

Section Join.
Context {A B : Type} (cond : A -> B -> bool).

Definition matches (r : list B) (a : A) : nat := List.length (filter (cond a) r).

Lemma left_outer_join_length : forall l r,
  List.length (left_outer_join cond l r) =
  list_sum (map (fun a => Nat.max 1 (matches r a)) l).
Proof.
  unfold left_outer_join, matches. induction l as [|a l IH]; simpl; intros r; auto.
  rewrite length_app, IH. f_equal.
  destruct (filter (cond a) r); simpl; auto. rewrite length_map. lia.
Qed.

Lemma left_outer_join_In : forall l r a ob,
  In (a, ob) (left_outer_join cond l r) <->
  In a l /\ match ob with
            | Some b => In b r /\ cond a b = true
            | None => forall b, In b r -> cond a b = false
            end.
Proof.
  unfold left_outer_join. intros l r a ob. rewrite in_flat_map. split.
  - intros [a' [Ha' Hj]].
    destruct (filter (cond a') r) as [|b0 bs] eqn:Hf.
    + destruct Hj as [Hj|[]]. injection Hj as -> <-. split; auto.
      intros b Hb. destruct (cond a b) eqn:Hc; auto.
      assert (In b (filter (cond a) r)) by (apply filter_In; auto).
      rewrite Hf in H. contradiction.
    + apply in_map_iff in Hj as [b [Hb Hbin]]. injection Hb as -> <-.
      rewrite <- Hf in Hbin. apply filter_In in Hbin. auto.
  - intros [Ha Hob]. exists a. split; auto.
    destruct ob as [b|].
    + destruct Hob as [Hb Hc].
      assert (Hbin : In b (filter (cond a) r)) by (apply filter_In; auto).
      destruct (filter (cond a) r); [contradiction|].
      apply in_map_iff. exists b. auto.
    + destruct (filter (cond a) r) as [|b0 bs] eqn:Hf; [left; auto|].
      assert (Hb0 : In b0 (filter (cond a) r)) by (rewrite Hf; left; auto).
      apply filter_In in Hb0 as [Hb0 Hc]. rewrite Hob in Hc; auto. discriminate.
Qed.

Lemma left_outer_join_keeps : forall l r a,
  In a l -> exists ob, In (a, ob) (left_outer_join cond l r).
Proof.
  intros l r a Ha.
  destruct (filter (cond a) r) as [|b bs] eqn:Hf.
  - exists None. apply left_outer_join_In. split; auto.
    intros b Hb. destruct (cond a b) eqn:Hc; auto.
    assert (In b (filter (cond a) r)) by (apply filter_In; auto).
    rewrite Hf in H. contradiction.
  - exists (Some b). apply left_outer_join_In.
    assert (Hb : In b (filter (cond a) r)) by (rewrite Hf; left; auto).
    apply filter_In in Hb. tauto.
Qed.

End Join.

Lemma list_sum_max1 {A} (f : A -> nat) : forall l,
  (List.length l <= list_sum (map (fun a => Nat.max 1 (f a)) l))%nat /\
  (list_sum (map (fun a => Nat.max 1 (f a)) l) = List.length l <->
   Forall (fun a => (f a <= 1)%nat) l).
Proof.
  induction l as [|a l [IH1 IH2]]; cbn [map list_sum List.length].
  - split; [lia|]. split; intros; auto.
  - pose proof (Nat.le_max_l 1 (f a)) as Hm1.
    pose proof (Nat.max_spec 1 (f a)) as Hm2.
    change (list_sum (Nat.max 1 (f a) :: map (fun a => Nat.max 1 (f a)) l))
      with (Nat.max 1 (f a) + list_sum (map (fun a => Nat.max 1 (f a)) l))%nat.
    split; [lia|]. rewrite Forall_cons_iff. split.
    + intros H. split; [lia|]. apply IH2. lia.
    + intros [Ha Hl]. apply IH2 in Hl. lia.
Qed.

Lemma with_ids_length {A B} gen (mk : A -> Z -> B) : forall l n,
  List.length (with_ids gen mk n l) = List.length l.
Proof. induction l; simpl; auto. Qed.

Lemma with_ids_In {A B} gen (mk : A -> Z -> B) : forall l n r,
  In r (with_ids gen mk n l) -> exists x id, In x l /\ r = mk x id.
Proof.
  induction l as [|x l IH]; simpl; intros n r H; [contradiction|].
  destruct H as [<-|H]; [exists x, (gen n); auto|].
  apply IH in H as [y [id [Hy ->]]]. exists y, id; auto.
Qed.

Lemma with_ids_In_rev {A B} gen (mk : A -> Z -> B) : forall l n x,
  In x l -> exists id, In (mk x id) (with_ids gen mk n l).
Proof.
  induction l as [|y l IH]; simpl; intros n x H; [contradiction|].
  destruct H as [<-|H]; [exists (gen n); left; auto|].
  destruct (IH (S n) x H) as [id Hid]. exists id; right; auto.
Qed.

Lemma sql_eq_true {A} (d : forall x y : A, {x = y} + {x <> y}) x y :
  sql_eq d x y = true <-> exists a, x = Some a /\ y = Some a.
Proof.
  destruct x as [a|], y as [b|]; simpl; split; intros H;
    try discriminate; try (destruct H; intuition congruence).
  - destruct (d a b) as [->|]; [eauto|discriminate].
  - destruct H as [c [Ha Hb]]. injection Ha as ->. injection Hb as ->.
    destruct (d c c); congruence.
Qed.

Lemma with_ids_drop_id gen : forall l n,
  map drop_id (with_ids gen songplays_select n l) = map (fun j => songplays_select j 0) l.
Proof.
  induction l as [|[e so] l IH]; simpl; intros n; auto. rewrite IH.
  destruct e, so; reflexivity.
Qed.

Lemma join_rows_drop_id gen song_df : forall l,
  map drop_id (with_ids gen songplays_select 0 (left_outer_join join_cond l song_df)) =
  flat_map (fun e =>
    match filter (join_cond e) song_df with
    | [] => [songplays_select (e, None) 0]
    | ms => map (fun s => songplays_select (e, Some s) 0) ms
    end) l.
Proof.
  intros l. rewrite with_ids_drop_id. unfold left_outer_join.
  induction l as [|e l IH]; [reflexivity|]. cbn [flat_map]. rewrite map_app, IH.
  f_equal. destruct (filter (join_cond e) song_df); simpl; auto.
  rewrite map_map. reflexivity.
Qed.

(* ------------------------------------------------------------------ *)
(** ** C1: every play is kept by the join, but one play can give several
    rows *)

(** C1 (counterexample): two catalog songs with different song_ids share
    the (artist_name, title, duration) of one play; the run writes two
    songplays rows for the single NextSong event. *)
Lemma songplays_count_dup_match :
  songplays_count (main utc_from_unixtime utc_to_timestamp ids_as_strings ids_one_partition
                     [song_S1; song_S2] [play_XY] empty_sink) = Some 2%nat /\
  List.length (filter is_play [play_XY]) = 1%nat.
Proof. vm_compute. split; reflexivity. Qed.

(** C1 (amended): the songplays join never drops a play (a play without a
    matching Songs row is kept once with null ids), each play gives one row
    per matching Songs row, so there are at least as many songplays rows as
    NextSong events, and exactly as many iff no play matches more than one
    Songs row.  Up to songplay_id, the rows are, play after play, one row
    per matching Songs row, or the single null-id row when there is none. *)
Theorem songplays_count_plays from_unixtime to_timestamp gen df song_df :
  let plays := df_filtered from_unixtime to_timestamp df in
  let rows := songplays_table from_unixtime to_timestamp gen df song_df in
  List.length plays = List.length (filter is_play df) /\
  (forall e, In e plays -> exists ob,
       In (e, ob) (joined_df from_unixtime to_timestamp df song_df)) /\
  (List.length plays <= List.length rows)%nat /\
  (List.length rows = List.length plays <->
   Forall (fun e => (matches join_cond song_df e <= 1)%nat) plays) /\
  List.length rows =
    list_sum (map (fun e => Nat.max 1 (matches join_cond song_df e)) plays) /\
  map drop_id rows =
    flat_map (fun e =>
      match filter (join_cond e) song_df with
      | [] => [songplays_select (e, None) 0]
      | ms => map (fun s => songplays_select (e, Some s) 0) ms
      end) plays /\
  (forall e s, In e plays -> In s song_df -> join_cond e s = true ->
     exists r, In r rows /\
       r = songplays_select (e, Some s) (SongplaysRow.songplay_id r)) /\
  (forall e, In e plays -> matches join_cond song_df e = 0%nat ->
     exists r, In r rows /\
       r = songplays_select (e, None) (SongplaysRow.songplay_id r) /\
       SongplaysRow.song_id r = None /\ SongplaysRow.artist_id r = None).
Proof.
  intros plays rows.
  assert (Hlen : List.length rows =
                 list_sum (map (fun e => Nat.max 1 (matches join_cond song_df e)) plays)).
  { unfold rows, songplays_table. rewrite with_ids_length.
    apply left_outer_join_length. }
  destruct (list_sum_max1 (matches join_cond song_df) plays) as [H1 H2].
  split; [unfold plays, df_filtered; apply length_map|].
  split; [intros e He; apply left_outer_join_keeps; auto|].
  split; [rewrite Hlen; exact H1|].
  split; [rewrite Hlen; exact H2|].
  split; [exact Hlen|].
  split.
  - apply join_rows_drop_id.
  - split.
    + intros e s He Hs Hc.
      assert (Hj : In (e, Some s) (joined_df from_unixtime to_timestamp df song_df))
        by (apply left_outer_join_In; auto).
      destruct (with_ids_In_rev gen songplays_select _ 0 _ Hj) as [id Hid].
      eexists. split; [exact Hid|]. destruct e; simpl; auto.
    + intros e He Hm.
      assert (Hn : forall s, In s song_df -> join_cond e s = false).
      { intros s Hs. destruct (join_cond e s) eqn:Hc; auto.
        unfold matches in Hm. apply length_zero_iff_nil in Hm.
        assert (Hf : In s (filter (join_cond e) song_df)) by (apply filter_In; auto).
        rewrite Hm in Hf. contradiction. }
      assert (Hj : In (e, None) (joined_df from_unixtime to_timestamp df song_df))
        by (apply left_outer_join_In; auto).
      destruct (with_ids_In_rev gen songplays_select _ 0 _ Hj) as [id Hid].
      eexists. split; [exact Hid|]. destruct e; simpl; auto.
Qed.

(* ------------------------------------------------------------------ *)
(** ** C2: the join condition and the ids it carries *)

(** C2: a play matches a Songs row exactly when artist = artist_name,
    song = title and length = duration, all three non-null and equal; each
    matching Songs row gives a songplays row carrying its song_id and
    artist_id; a play with no match gives a row with null song_id and
    artist_id; and every songplays row arises in one of these two ways. *)
Theorem songplays_join_ids from_unixtime to_timestamp gen df song_df :
  let plays := df_filtered from_unixtime to_timestamp df in
  let rows := songplays_table from_unixtime to_timestamp gen df song_df in
  (forall e s, join_cond e s = true <->
     exists a t d,
       Log.artist (Enriched.ev e) = Some a /\ SongsRow.artist_name s = Some a /\
       Log.song (Enriched.ev e) = Some t /\ SongsRow.title s = Some t /\
       Log.length (Enriched.ev e) = Some d /\ SongsRow.duration s = Some d) /\
  (forall e s, In e plays -> In s song_df -> join_cond e s = true ->
     exists r, In r rows /\
       r = songplays_select (e, Some s)
             (SongplaysRow.songplay_id r) /\
       SongplaysRow.song_id r = SongsRow.song_id s /\
       SongplaysRow.artist_id r = SongsRow.artist_id s) /\
  (forall e, In e plays -> (forall s, In s song_df -> join_cond e s = false) ->
     exists r, In r rows /\
       r = songplays_select (e, None)
             (SongplaysRow.songplay_id r) /\
       SongplaysRow.song_id r = None /\ SongplaysRow.artist_id r = None) /\
  (forall r, In r rows -> exists e, In e plays /\
     ((exists s, In s song_df /\ join_cond e s = true /\
         r = songplays_select (e, Some s)
               (SongplaysRow.songplay_id r)) \/
      ((forall s, In s song_df -> join_cond e s = false) /\
         r = songplays_select (e, None)
               (SongplaysRow.songplay_id r)))).
Proof.
  intros plays rows. split; [|split; [|split]].
  - intros e s. unfold join_cond. rewrite !andb_true_iff, !sql_eq_true.
    split.
    + intros [[[a [Ha1 Ha2]] [t [Ht1 Ht2]]] [d [Hd1 Hd2]]]. exists a, t, d. tauto.
    + intros [a [t [d H]]]. intuition eauto.
  - intros e s He Hs Hc.
    assert (Hj : In (e, Some s) (joined_df from_unixtime to_timestamp df song_df))
      by (apply left_outer_join_In; auto).
    destruct (with_ids_In_rev gen (songplays_select)
                _ 0 _ Hj) as [id Hid].
    eexists. split; [exact Hid|]. destruct e; simpl; auto.
  - intros e He Hn.
    assert (Hj : In (e, None) (joined_df from_unixtime to_timestamp df song_df))
      by (apply left_outer_join_In; auto).
    destruct (with_ids_In_rev gen (songplays_select)
                _ 0 _ Hj) as [id Hid].
    eexists. split; [exact Hid|]. destruct e; simpl; auto.
  - intros r Hr. apply with_ids_In in Hr as [[e ob] [id [Hj ->]]].
    apply left_outer_join_In in Hj as [He Hob]. exists e. split; [exact He|].
    destruct ob as [s|]; [left; exists s; destruct Hob; destruct e; simpl; auto
                         |right; destruct e; simpl; auto].
Qed.

(** The example of the spec, run end to end in a UTC session: a play
    matching the catalog row (X, Y, 210.5) gets S1/A1, a play without a
    matching triple is kept with null ids. *)
Example join_spec_example :
  songplays_ids (main utc_from_unixtime utc_to_timestamp ids_as_strings ids_one_partition
                   [song_S1] [play_XY; play_miss] empty_sink) =
  Some [(Some "S1", Some "A1"); (None, None)].
Proof. vm_compute. reflexivity. Qed.

(* ------------------------------------------------------------------ *)
(** ** C3: keys of the songs and time tables *)

(** C3: the songs table has no two rows with the same song_id, and the
    time table no two rows with the same datetime. *)
Theorem songs_time_keys_unique from_unixtime to_timestamp song_data log_data :
  NoDup (map SongsRow.song_id (songs_table song_data)) /\
  NoDup (map TimeRow.datetime (time_table from_unixtime to_timestamp log_data)).
Proof.
  split; [apply drop_dups_by_nodup|].
  apply (NoDup_map_determined TimeRow.datetime time_columns);
    [apply dropDuplicates_NoDup|].
  intros r Hr. apply dropDuplicates_In, in_map_iff in Hr as [e [<- _]].
  reflexivity.
Qed.

(* ------------------------------------------------------------------ *)
(** ** C4, C10: the users table *)

Lemma users_table_In df r :
  In r (users_table df) <-> exists e, In e df /\ r = users_select e.
Proof.
  unfold users_table. rewrite dropDuplicates_In, in_map_iff.
  split; intros [e [H1 H2]]; eauto.
Qed.

(** C4: the users table holds the distinct (userId, firstName, lastName,
    gender, level) projections of all log events, whatever their page;
    since level is part of the distinct key, a user seen as "free" and as
    "paid" has two different rows. *)
Theorem users_all_events_level_key (df : list Log.t) :
  (forall r, In r (users_table df) <-> exists e, In e df /\ r = users_select e) /\
  NoDup (users_table df) /\
  (forall e1 e2, In e1 df -> In e2 df -> Log.userId e1 = Log.userId e2 ->
     Log.level e1 = Some "free" -> Log.level e2 = Some "paid" ->
     In (users_select e1) (users_table df) /\ In (users_select e2) (users_table df) /\
     users_select e1 <> users_select e2 /\
     UsersRow.userId (users_select e1) = Log.userId e1 /\
     UsersRow.userId (users_select e2) = Log.userId e1).
Proof.
  split; [apply users_table_In|]. split; [apply dropDuplicates_NoDup|].
  intros e1 e2 H1 H2 Hu Hfree Hpaid.
  split; [apply users_table_In; eauto|]. split; [apply users_table_In; eauto|].
  split; [|simpl; auto].
  intros Heq. apply (f_equal UsersRow.level) in Heq. simpl in Heq.
  rewrite Hfree, Hpaid in Heq. discriminate.
Qed.

(** Witness of C4: the same user as "free", then as "paid", around a
    non-play event. *)
Lemma users_all_events_level_key_witness :
  In play_XY [play_XY; home_logged_out; play_XY_paid] /\
  In play_XY_paid [play_XY; home_logged_out; play_XY_paid] /\
  Log.userId play_XY = Log.userId play_XY_paid /\
  Log.level play_XY = Some "free" /\ Log.level play_XY_paid = Some "paid" /\
  In (users_select play_XY) (users_table [play_XY; home_logged_out; play_XY_paid]) /\
  In (users_select play_XY_paid) (users_table [play_XY; home_logged_out; play_XY_paid]) /\
  users_select play_XY <> users_select play_XY_paid.
Proof.
  destruct (proj2 (proj2 (users_all_events_level_key
    [play_XY; home_logged_out; play_XY_paid])) play_XY play_XY_paid
    (or_introl eq_refl) (or_intror (or_intror (or_introl eq_refl)))
    eq_refl eq_refl eq_refl) as [Ha [Hb [Hc _]]].
  refine (conj (or_introl eq_refl) (conj (or_intror (or_intror (or_introl eq_refl)))
    (conj eq_refl (conj eq_refl (conj eq_refl (conj Ha (conj Hb Hc))))))).
Defined.

(** C10: no event is filtered out before the users projection, so an event
    with a null or empty userId (a logged-out interaction) gives a users row
    with that userId. *)
Theorem users_keeps_anonymous (df : list Log.t) (e : Log.t) (He : In e df)
  (Hanon : Log.userId e = None \/ Log.userId e = Some "") :
  exists r, In r (users_table df) /\ UsersRow.userId r = Log.userId e.
Proof.
  exists (users_select e). split; [apply users_table_In; eauto|reflexivity].
Qed.

Lemma users_keeps_anonymous_witness :
  In home_logged_out [play_XY; home_logged_out] /\
  Log.page home_logged_out = Some "Home" /\
  exists r, In r (users_table [play_XY; home_logged_out]) /\
    UsersRow.userId r = Some "".
Proof.
  refine (conj (or_intror (or_introl eq_refl)) (conj eq_refl _)).
  exact (users_keeps_anonymous [play_XY; home_logged_out] home_logged_out
           (or_intror (or_introl eq_refl)) (or_intror eq_refl)).
Defined.

(* ------------------------------------------------------------------ *)
(** ** C5: the artists table *)

Lemma artists_table_In df a :
  In a (artists_table df) <-> exists r, In r df /\ a = artists_select r.
Proof.
  unfold artists_table. rewrite dropDuplicates_In, in_map_iff.
  split; intros [r [H1 H2]]; eauto.
Qed.

(** C5: the artists table holds the distinct (artist_id, name, location,
    latitude, longitude) projections of all catalog records, not of the
    songs table deduplicated by song_id; two records of one artist_id with
    a different location or coordinates give two different rows. *)
Theorem artists_keep_variants (df : list Catalog.t) :
  (forall a, In a (artists_table df) <-> exists r, In r df /\ a = artists_select r) /\
  NoDup (artists_table df) /\
  (forall r1 r2, In r1 df -> In r2 df ->
     Catalog.artist_id r1 = Catalog.artist_id r2 ->
     Catalog.artist_location r1 <> Catalog.artist_location r2 \/
     Catalog.artist_latitude r1 <> Catalog.artist_latitude r2 \/
     Catalog.artist_longitude r1 <> Catalog.artist_longitude r2 ->
     In (artists_select r1) (artists_table df) /\
     In (artists_select r2) (artists_table df) /\
     artists_select r1 <> artists_select r2 /\
     ArtistsRow.artist_id (artists_select r1) = ArtistsRow.artist_id (artists_select r2)).
Proof.
  split; [apply artists_table_In|]. split; [apply dropDuplicates_NoDup|].
  intros r1 r2 H1 H2 Hid Hdiff.
  split; [apply artists_table_In; eauto|]. split; [apply artists_table_In; eauto|].
  split; [|exact Hid].
  intros Heq. destruct r1, r2; simpl in *. injection Heq. intros. tauto.
Qed.

(** Witness of C5: two catalog records of artist A1 with the same song_id
    S1 but different locations; the songs table keeps one of them, the
    artists table both. *)
Lemma artists_keep_variants_witness :
  List.length (songs_table [song_S1; song_S1_giza]) = 1%nat /\
  In (artists_select song_S1) (artists_table [song_S1; song_S1_giza]) /\
  In (artists_select song_S1_giza) (artists_table [song_S1; song_S1_giza]) /\
  artists_select song_S1 <> artists_select song_S1_giza.
Proof.
  assert (Hd : Catalog.artist_location song_S1 <> Catalog.artist_location song_S1_giza)
    by (vm_compute; discriminate).
  destruct (proj2 (proj2 (artists_keep_variants [song_S1; song_S1_giza]))
              song_S1 song_S1_giza
              (or_introl eq_refl) (or_intror (or_introl eq_refl)) eq_refl
              (or_introl Hd)) as [Ha [Hb [Hc _]]].
  split; [reflexivity|]. split; [exact Ha|]. split; [exact Hb|exact Hc].
Defined.

(* ------------------------------------------------------------------ *)
(** ** C6: the timestamp columns *)

Lemma filter_enrich from_unixtime to_timestamp : forall l,
  map (enrich from_unixtime to_timestamp) (filter is_play l) =
  filter (fun x => is_play (Enriched.ev x)) (map (enrich from_unixtime to_timestamp) l).
Proof.
  induction l as [|e l IH]; simpl; auto.
  destruct (is_play e); simpl; rewrite IH; auto.
Qed.

(** C6: the plays carry the timestamp columns computed from ts: the
    [timestamp] string is [from_unixtime] of ts/1000 truncated to whole
    seconds and [datetime] is that string parsed by [to_timestamp] (null
    when ts is null); the same columns are attached to the full event set,
    the plays being exactly its NextSong rows. *)
Theorem plays_datetime_from_ts from_unixtime to_timestamp (df : list Log.t) :
  df_filtered from_unixtime to_timestamp df =
    filter (fun x => is_play (Enriched.ev x)) (df_with_time from_unixtime to_timestamp df) /\
  (forall x, In x (df_filtered from_unixtime to_timestamp df) ->
     In (Enriched.ev x) df /\ Log.page (Enriched.ev x) = Some "NextSong" /\
     In x (df_with_time from_unixtime to_timestamp df) /\
     Enriched.timestamp x =
       option_map (fun t => from_unixtime (Z.quot t 1000)) (Log.ts (Enriched.ev x)) /\
     Enriched.datetime x =
       match Log.ts (Enriched.ev x) with
       | Some t => to_timestamp (from_unixtime (Z.quot t 1000))
       | None => None
       end).
Proof.
  assert (Heq : df_filtered from_unixtime to_timestamp df =
    filter (fun x => is_play (Enriched.ev x)) (df_with_time from_unixtime to_timestamp df))
    by apply filter_enrich.
  split; [exact Heq|].
  intros x Hx. pose proof Hx as Hx'. rewrite Heq in Hx'.
  apply filter_In in Hx' as [Hw Hp].
  unfold df_filtered in Hx. apply in_map_iff in Hx as [e [<- He]].
  apply filter_In in He as [He _]. simpl in *.
  split; [exact He|]. split.
  - unfold is_play in Hp. apply sql_eq_true in Hp as [a [-> Ha]]. congruence.
  - split; [exact Hw|]. split; [reflexivity|]. destruct (Log.ts e); reflexivity.
Qed.

(** In a UTC session, ts = 1541903636796 ms is 2018-11-11 02:33:56. *)
Example plays_datetime_utc :
  Enriched.datetime (enrich utc_from_unixtime utc_to_timestamp play_XY) =
  Some (mkcivil 2018 11 11 2 33 56).
Proof. vm_compute. reflexivity. Qed.

(* ------------------------------------------------------------------ *)
(** ** C7: reading the songs back *)

(** C7 (counterexample): the songs output present in the bucket is from
    another catalog (here: only S1, written by an earlier run); the log job
    does not report it, it completes and joins the plays against it. *)
Lemma songplays_joins_stale_songs :
  match process_log_data utc_from_unixtime utc_to_timestamp ids_as_strings ids_one_partition
          [play_XY] (process_song_data [song_S1] empty_sink) with
  | Done _ => True
  | Failed _ _ => False
  end /\
  songplays_ids (process_log_data utc_from_unixtime utc_to_timestamp
                   ids_as_strings ids_one_partition [play_XY]
                   (process_song_data [song_S1] empty_sink)) =
    Some [(Some "S1", Some "A1")].
Proof. vm_compute. split; [exact I|reflexivity]. Qed.

(** C7 (amended): there is no readiness check; the songplays step reads
    whatever songs output is in the bucket.  It fails, after users and time
    are written, when there is none, when it holds no rows, or when every
    songs row has a null artist_id; otherwise it completes, joining the
    plays against the songs rows read back. *)
Theorem songplays_reads_bucket_songs from_unixtime to_timestamp infer_artist_ids
  gen df s :
  let run := process_log_data from_unixtime to_timestamp infer_artist_ids gen df s in
  ((songs_out s = None \/ songs_out s = Some [] \/
    exists files, songs_out s = Some files /\
      Forall (fun f => dir_value "artist_id" (fst f) = None) files) ->
   exists msg s', run = Failed msg s' /\
     users_out s' = Some (users_table df) /\
     time_out s' = Some (write_partitioned time_part
                           (time_table from_unixtime to_timestamp df))) /\
  (forall files, songs_out s = Some files ->
   Exists (fun f => dir_value "artist_id" (fst f) <> None) files ->
   exists s', run = Done s' /\ songs_out s' = Some files /\
     users_out s' = Some (users_table df) /\
     songplays_out s' =
       Some (write_partitioned songplays_part
               (songplays_table from_unixtime to_timestamp gen df
                  (read_back_songs infer_artist_ids files)))).
Proof.
  intros run. unfold run, process_log_data.
  destruct s as [so ao uo tmo spo]. simpl. split.
  - intros [->|[->|[files [-> Hall]]]]; [eauto 10|eauto 10|].
    destruct files as [|f fs]; [eauto 10|].
    assert (Hb : forallb (fun f => is_null (dir_value "artist_id" (fst f))) (f :: fs) = true).
    { apply forallb_forall. intros x Hx. rewrite Forall_forall in Hall.
      rewrite (Hall x Hx). reflexivity. }
    rewrite Hb. eauto 10.
  - intros files -> Hex. destruct files as [|f fs]; [inversion Hex|].
    assert (Hb : forallb (fun f => is_null (dir_value "artist_id" (fst f))) (f :: fs) = false).
    { apply Exists_exists in Hex as [x [Hx Hnn]].
      destruct (forallb _ _) eqn:E; auto. exfalso. apply Hnn.
      rewrite forallb_forall in E. specialize (E x Hx).
      destruct (dir_value "artist_id" (fst x)); [discriminate|reflexivity]. }
    rewrite Hb. eauto 10.
Qed.

(* ------------------------------------------------------------------ *)
(** ** C8: two runs on the same input *)

(** Two runs see the same input rows, possibly in another order: Spark
    fixes no row order, so each run is modelled on a permutation of the
    input. *)

Lemma Permutation_filter_compat {A} (f : A -> bool) : forall l1 l2,
  Permutation l1 l2 -> Permutation (filter f l1) (filter f l2).
Proof.
  intros l1 l2 H. induction H; simpl.
  - constructor.
  - destruct (f x); auto.
  - destruct (f x), (f y); auto. apply perm_swap.
  - eapply perm_trans; eauto.
Qed.

Lemma flat_map_perm_pointwise {A B} (f g : A -> list B) : forall l,
  (forall a, Permutation (f a) (g a)) -> Permutation (flat_map f l) (flat_map g l).
Proof.
  induction l as [|a l IH]; simpl; intros H; auto. apply Permutation_app; auto.
Qed.

Lemma left_outer_join_perm {A B} (cond : A -> B -> bool) l1 l2 r1 r2 :
  Permutation l1 l2 -> Permutation r1 r2 ->
  Permutation (left_outer_join cond l1 r1) (left_outer_join cond l2 r2).
Proof.
  intros Hl Hr. unfold left_outer_join. eapply perm_trans.
  - apply (Permutation_flat_map _ Hl).
  - apply flat_map_perm_pointwise. intros a.
    pose proof (Permutation_filter_compat (cond a) _ _ Hr) as Hf.
    destruct (filter (cond a) r1) as [|b1 bs1], (filter (cond a) r2) as [|b2 bs2].
    + auto.
    + apply Permutation_nil in Hf. discriminate.
    + symmetry in Hf. apply Permutation_nil in Hf. discriminate.
    + apply Permutation_map. exact Hf.
Qed.

Lemma drop_dups_by_keeps_all {A K} (kd : forall x y : K, {x = y} + {x <> y})
  (key : A -> K) : forall l seen,
  NoDup (map key l) -> (forall x, In x l -> ~ In (key x) seen) ->
  drop_dups_by kd key seen l = l.
Proof.
  induction l as [|a l IH]; simpl; intros seen Hnd Hs; auto.
  inversion Hnd as [|? ? Ha Hl]; subst.
  destruct (in_dec kd (key a) seen) as [Hin|Hnin].
  - exfalso. apply (Hs a); auto.
  - f_equal. apply IH; auto. intros x Hx [Hk|Hk].
    + apply Ha. rewrite Hk. apply in_map; auto.
    + apply (Hs x); auto.
Qed.

Lemma songs_table_no_dup_ids df :
  NoDup (map Catalog.song_id df) -> songs_table df = map songs_select df.
Proof.
  intros H. unfold songs_table, dropDuplicates_on. apply drop_dups_by_keeps_all.
  - rewrite map_map. exact H.
  - intros x _ [].
Qed.

Lemma in_iff_perm {A} (l1 l2 : list A) :
  Permutation l1 l2 -> forall x, In x l1 <-> In x l2.
Proof. intros H x. split; apply Permutation_in; [|symmetry]; auto. Qed.

(** C8 (counterexample): the catalog holds two records with song_id S1 and
    different titles; the two orders in which a run can meet them keep
    different songs rows, and a play of "Y" then matches S1 in one run
    and nothing in the other. *)
Lemma songs_depend_on_row_order :
  Permutation [song_S1; song_S1_w] [song_S1_w; song_S1] /\
  ~ Permutation (songs_table [song_S1; song_S1_w]) (songs_table [song_S1_w; song_S1]) /\
  songplays_ids (main utc_from_unixtime utc_to_timestamp ids_as_strings ids_one_partition
                   [song_S1; song_S1_w] [play_XY] empty_sink) =
    Some [(Some "S1", Some "A1")] /\
  songplays_ids (main utc_from_unixtime utc_to_timestamp ids_as_strings ids_one_partition
                   [song_S1_w; song_S1] [play_XY] empty_sink) =
    Some [(None, None)].
Proof.
  split; [apply perm_swap|]. split; [|vm_compute; split; reflexivity].
  assert (E1 : songs_table [song_S1; song_S1_w] = [songs_select song_S1])
    by (vm_compute; reflexivity).
  assert (E2 : songs_table [song_S1_w; song_S1] = [songs_select song_S1_w])
    by (vm_compute; reflexivity).
  rewrite E1, E2. intros H. apply Permutation_length_1 in H.
  apply (f_equal SongsRow.title) in H. vm_compute in H. discriminate.
Qed.

(** C8 (amended): two runs on the same input rows, met in any orders, give
    the same artists, users and time rows and the same song_ids, up to row
    order; when no song_id occurs twice in the catalog they also give the
    same songs rows and the same songplays rows apart from songplay_id. *)
Theorem rerun_same_rows from_unixtime to_timestamp gen1 gen2
  (c1 c2 : list Catalog.t) (e1 e2 : list Log.t)
  (Hc : Permutation c1 c2) (He : Permutation e1 e2) :
  Permutation (artists_table c1) (artists_table c2) /\
  Permutation (users_table e1) (users_table e2) /\
  Permutation (time_table from_unixtime to_timestamp e1)
              (time_table from_unixtime to_timestamp e2) /\
  Permutation (map SongsRow.song_id (songs_table c1))
              (map SongsRow.song_id (songs_table c2)) /\
  (NoDup (map Catalog.song_id c1) ->
   Permutation (songs_table c1) (songs_table c2) /\
   Permutation
     (map drop_id (songplays_table from_unixtime to_timestamp gen1 e1 (songs_table c1)))
     (map drop_id (songplays_table from_unixtime to_timestamp gen2 e2 (songs_table c2)))).
Proof.
  assert (Hp : Permutation (df_filtered from_unixtime to_timestamp e1)
                           (df_filtered from_unixtime to_timestamp e2)).
  { unfold df_filtered. apply Permutation_map, Permutation_filter_compat, He. }
  split; [apply dropDuplicates_perm, in_iff_perm, Permutation_map, Hc|].
  split; [apply dropDuplicates_perm, in_iff_perm, Permutation_map, He|].
  split; [apply dropDuplicates_perm, in_iff_perm, Permutation_map, Hp|].
  split.
  - apply NoDup_Permutation; try apply drop_dups_by_nodup.
    intros k. unfold songs_table. rewrite !dropDuplicates_on_keys.
    apply in_iff_perm, Permutation_map, Permutation_map, Hc.
  - intros Hnd.
    assert (Hnd2 : NoDup (map Catalog.song_id c2))
      by (eapply Permutation_NoDup; [apply Permutation_map, Hc|exact Hnd]).
    rewrite !songs_table_no_dup_ids by assumption.
    split; [apply Permutation_map, Hc|].
    unfold songplays_table. rewrite !with_ids_drop_id.
    apply Permutation_map. unfold joined_df.
    apply left_outer_join_perm; [exact Hp|apply Permutation_map, Hc].
Qed.

(** Witness of C8: the catalog and the log read in two different orders. *)
Lemma rerun_same_rows_witness :
  Permutation [song_S1; song_S2] [song_S2; song_S1] /\
  Permutation [play_XY; home_logged_out] [home_logged_out; play_XY] /\
  Permutation (users_table [play_XY; home_logged_out])
              (users_table [home_logged_out; play_XY]).
Proof.
  refine (conj (perm_swap _ _ _) (conj (perm_swap _ _ _) _)).
  exact (proj1 (proj2 (rerun_same_rows utc_from_unixtime utc_to_timestamp
    ids_one_partition ids_one_partition [song_S1; song_S2] [song_S2; song_S1]
    [play_XY; home_logged_out] [home_logged_out; play_XY]
    (perm_swap _ _ _) (perm_swap _ _ _)))).
Defined.

(* ------------------------------------------------------------------ *)
(** ** C9: partition directories *)

Lemma write_partitioned_In {A} (part : A -> part_dir) rows p r :
  In (p, r) (write_partitioned part rows) -> In r rows /\ p = part r.
Proof.
  unfold write_partitioned. intros H. apply in_map_iff in H as [x [Hx Hin]].
  injection Hx as H1 H2. subst. auto.
Qed.

(** C9: a run writes every songs row under year=/artist_id= of that row,
    and every time row, and every songplays row it writes, under
    year=/month= where the month value is [date_format(datetime, 'MMMM')],
    the full month name of the row's datetime. *)
Theorem partitions_by_keys from_unixtime to_timestamp infer_artist_ids gen
  song_data log_data s :
  let run := main from_unixtime to_timestamp infer_artist_ids gen song_data log_data s in
  (forall c, 1 <= cmo c <= 12 -> In (fmt_MMMM c) month_names) /\
  (exists sf, songs_out (outcome_sink run) = Some sf /\
    forall p r, In (p, r) sf ->
      p = [("year", pv_int (SongsRow.year r));
           ("artist_id", pv_str (SongsRow.artist_id r))]) /\
  (exists tf, time_out (outcome_sink run) = Some tf /\
    forall p r, In (p, r) tf ->
      p = [("year", pv_int (option_map fmt_y (TimeRow.datetime r)));
           ("month", pv_str (option_map fmt_MMMM (TimeRow.datetime r)))]) /\
  (forall s', run = Done s' -> exists pf, songplays_out s' = Some pf /\
    forall p r, In (p, r) pf -> exists e,
      In e (df_filtered from_unixtime to_timestamp log_data) /\
      SongplaysRow.timestamp r = Enriched.timestamp e /\
      p = [("year", pv_int (option_map fmt_y (Enriched.datetime e)));
           ("month", pv_str (option_map fmt_MMMM (Enriched.datetime e)))]).
Proof.
  intros run. split.
  { intros c Hc. unfold fmt_MMMM. apply nth_In. simpl. lia. }
  assert (Hsongs : forall p r,
    In (p, r) (write_partitioned songs_part (songs_table song_data)) ->
    p = [("year", pv_int (SongsRow.year r));
         ("artist_id", pv_str (SongsRow.artist_id r))]).
  { intros p r H. apply write_partitioned_In in H as [_ ->]. reflexivity. }
  assert (Htime : forall p r,
    In (p, r) (write_partitioned time_part (time_table from_unixtime to_timestamp log_data)) ->
    p = [("year", pv_int (option_map fmt_y (TimeRow.datetime r)));
         ("month", pv_str (option_map fmt_MMMM (TimeRow.datetime r)))]).
  { intros p r H. apply write_partitioned_In in H as [Hr ->].
    apply dropDuplicates_In, in_map_iff in Hr as [e [<- _]]. reflexivity. }
  unfold run, main, process_log_data, process_song_data. simpl.
  destruct (write_partitioned songs_part (songs_table song_data)) as [|f fs] eqn:Ef.
  { simpl. split; [eexists; split; [reflexivity|exact Hsongs]|].
    split; [eexists; split; [reflexivity|exact Htime]|]. intros s' H; discriminate. }
  destruct (forallb _ (f :: fs)).
  { simpl. split; [eexists; split; [reflexivity|exact Hsongs]|].
    split; [eexists; split; [reflexivity|exact Htime]|]. intros s' H; discriminate. }
  simpl. split; [eexists; split; [reflexivity|exact Hsongs]|].
  split; [eexists; split; [reflexivity|exact Htime]|].
  intros s' H. injection H as <-. eexists. split; [reflexivity|].
  intros p r H. apply write_partitioned_In in H as [Hr ->].
  apply with_ids_In in Hr as [[e ob] [id [Hj ->]]].
  apply left_outer_join_In in Hj as [He _].
  exists e. split; [exact He|]. destruct e; simpl; auto.
Qed.


(* ------------------------------------------------------------------ *)
(** ** Further properties of the job *)

Lemma drop_dups_by_length {A K} (kd : forall x y : K, {x = y} + {x <> y})
  (key : A -> K) : forall l seen,
  (List.length (drop_dups_by kd key seen l) <= List.length l)%nat.
Proof.
  induction l as [|a l IH]; simpl; intros seen; [lia|].
  destruct (in_dec kd (key a) seen); simpl;
    [specialize (IH seen)|specialize (IH (key a :: seen))]; lia.
Qed.

(** The songs table: each row is the projection of a catalog record, every
    song_id of the catalog has a row, and there are at most as many rows as
    catalog records. *)
Theorem songs_table_rows (df : list Catalog.t) :
  (forall r, In r (songs_table df) -> exists c, In c df /\ r = songs_select c) /\
  (forall c, In c df -> exists r, In r (songs_table df) /\
                                   SongsRow.song_id r = Catalog.song_id c) /\
  (List.length (songs_table df) <= List.length df)%nat.
Proof.
  unfold songs_table, dropDuplicates_on. split; [|split].
  - intros r Hr. apply drop_dups_by_sound in Hr as [Hr _].
    apply in_map_iff in Hr as [c [<- Hc]]. eauto.
  - intros c Hc.
    destruct (drop_dups_by_complete str_dec SongsRow.song_id
                (map songs_select df) [] (songs_select c) (in_map _ _ _ Hc))
      as [[]|[r [Hr Hk]]].
    exists r. split; [exact Hr|exact Hk].
  - rewrite <- (length_map songs_select df). apply drop_dups_by_length.
Qed.

Lemma filter_idem {A} (f : A -> bool) : forall l, filter f (filter f l) = filter f l.
Proof.
  induction l as [|a l IH]; simpl; auto.
  destruct (f a) eqn:Ha; simpl; [rewrite Ha, IH|]; auto.
Qed.

(** Time and songplays are derived from the NextSong events only: dropping
    the other events leaves the time table unchanged and the songplays rows
    unchanged apart from their songplay_id (whatever ids either run hands
    out), and the time rows are exactly the calendar columns of the plays'
    datetimes. *)
Theorem time_songplays_from_plays_only from_unixtime to_timestamp gen1 gen2
  (df : list Log.t) (song_df : list SongsRow.t) :
  time_table from_unixtime to_timestamp df =
    time_table from_unixtime to_timestamp (filter is_play df) /\
  map drop_id (songplays_table from_unixtime to_timestamp gen1 df song_df) =
    map drop_id (songplays_table from_unixtime to_timestamp gen2
                   (filter is_play df) song_df) /\
  (forall t, In t (time_table from_unixtime to_timestamp df) <->
     exists e, In e df /\ is_play e = true /\
       t = time_columns (Enriched.datetime (enrich from_unixtime to_timestamp e))).
Proof.
  assert (Hf : df_filtered from_unixtime to_timestamp (filter is_play df) =
               df_filtered from_unixtime to_timestamp df)
    by (unfold df_filtered; rewrite filter_idem; reflexivity).
  split; [unfold time_table; rewrite Hf; reflexivity|].
  split; [unfold songplays_table, joined_df; rewrite !with_ids_drop_id, Hf; reflexivity|].
  intros t. unfold time_table. rewrite dropDuplicates_In, in_map_iff.
  split.
  - intros [x [<- Hx]]. unfold df_filtered in Hx.
    apply in_map_iff in Hx as [e [<- He]]. apply filter_In in He as [He Hp].
    exists e. auto.
  - intros [e [He [Hp ->]]]. exists (enrich from_unixtime to_timestamp e).
    split; [reflexivity|]. apply in_map, filter_In. auto.
Qed.

(** Every songplays row has a row of the time table for the same play:
    same datetime, and the month and year partition values of the
    songplays row equal the Month and year columns of that time row. *)
Theorem songplays_have_time_row from_unixtime to_timestamp gen
  (df : list Log.t) (song_df : list SongsRow.t) :
  forall r, In r (songplays_table from_unixtime to_timestamp gen df song_df) ->
  exists e t, In e (df_filtered from_unixtime to_timestamp df) /\
    In t (time_table from_unixtime to_timestamp df) /\
    SongplaysRow.timestamp r = Enriched.timestamp e /\
    TimeRow.datetime t = Enriched.datetime e /\
    SongplaysRow.month r = TimeRow.Month t /\
    SongplaysRow.year r = TimeRow.year t.
Proof.
  intros r Hr. apply with_ids_In in Hr as [[e ob] [id [Hj ->]]].
  apply left_outer_join_In in Hj as [He _].
  exists e, (time_select e). split; [exact He|].
  split; [apply dropDuplicates_In, in_map; exact He|].
  destruct e, ob; simpl; auto.
Qed.

Lemma forallb_map_fn {A B} (f : B -> bool) (g : A -> B) l :
  forallb f (map g l) = forallb (fun x => f (g x)) l.
Proof. induction l; simpl; congruence. Qed.

Lemma read_back_plain infer_artist_ids : forall rows,
  forallb (fun r => pval_plain (pv_str (SongsRow.artist_id r))) rows = true ->
  read_back_songs infer_artist_ids (write_partitioned songs_part rows) =
  map songs_row_read rows.
Proof.
  intros rows H. unfold read_back_songs, write_partitioned.
  rewrite map_map. simpl.
  assert (Hf : forallb pval_plain
                 (map (fun x => dir_value "artist_id" (songs_part x)) rows) = true)
    by (rewrite forallb_map_fn; exact H).
  rewrite Hf. clear Hf.
  induction rows as [|r rows IH]; simpl; auto.
  simpl in H. apply andb_true_iff in H as [_ H]. rewrite IH by exact H.
  destruct r as [? ? ? ? [y|] ?]; reflexivity.
Qed.

Lemma songs_table_from_catalog df r :
  In r (songs_table df) -> exists c, In c df /\ r = songs_select c.
Proof.
  intros H. apply drop_dups_by_sound in H as [H _].
  apply in_map_iff in H as [c [<- Hc]]. eauto.
Qed.

(** A full run completes exactly when some songs row has an artist_id
    that is neither null nor empty.  When every catalog artist_id is null,
    empty or plain text, the completed run leaves the bucket holding
    exactly this run's five tables, whatever it held before, with songplays
    joined against the songs rows written by this run (an empty artist_id
    coming back null). *)
Theorem main_overwrites_all from_unixtime to_timestamp infer_artist_ids gen
  (song_data : list Catalog.t) (log_data : list Log.t) (s : Sink)
  (Hplain : Forall (fun c => pval_plain (pv_str (Catalog.artist_id c)) = true) song_data) :
  let run := main from_unixtime to_timestamp infer_artist_ids gen song_data log_data s in
  ((exists s', run = Done s') <->
   existsb (fun r => negb (is_null (pv_str (SongsRow.artist_id r))))
     (songs_table song_data) = true) /\
  (forall s', run = Done s' ->
   s' = mkSink
     (Some (write_partitioned songs_part (songs_table song_data)))
     (Some (artists_table song_data))
     (Some (users_table log_data))
     (Some (write_partitioned time_part (time_table from_unixtime to_timestamp log_data)))
     (Some (write_partitioned songplays_part
              (songplays_table from_unixtime to_timestamp gen log_data
                 (map songs_row_read (songs_table song_data)))))) /\
  (forall r, SongsRow.artist_id r <> Some "" -> songs_row_read r = r).
Proof.
  intros run.
  assert (Hp : forallb (fun r => pval_plain (pv_str (SongsRow.artist_id r)))
                 (songs_table song_data) = true).
  { apply forallb_forall. intros r Hr.
    apply songs_table_from_catalog in Hr as [c [Hc ->]].
    rewrite Forall_forall in Hplain. apply Hplain, Hc. }
  assert (Hnull : forallb (fun f => is_null (dir_value "artist_id" (fst f)))
                    (write_partitioned songs_part (songs_table song_data)) =
                  negb (existsb (fun r => negb (is_null (pv_str (SongsRow.artist_id r))))
                          (songs_table song_data))).
  { clear Hp. unfold write_partitioned. rewrite forallb_map_fn.
    induction (songs_table song_data) as [|r rs IH]; [reflexivity|].
    cbn [forallb existsb]. rewrite IH.
    destruct r as [? ? ? [a|] ? ?]; unfold songs_part, dir_value, pv_str; simpl;
      [|reflexivity].
    destruct (String.eqb a ""); reflexivity. }
  unfold run, main, process_log_data, process_song_data. simpl.
  split; [|split].
  - rewrite Hnull.
    destruct (write_partitioned songs_part (songs_table song_data)) eqn:Ew.
    + unfold write_partitioned in Ew. apply map_eq_nil in Ew. rewrite Ew. simpl.
      split; [intros [s' H]; discriminate|discriminate].
    + destruct (existsb _ _); simpl; split; intros H;
        try discriminate; eauto; destruct H; discriminate.
  - intros s' H. rewrite Hnull in H.
    destruct (existsb _ _) eqn:Ee; [|destruct (write_partitioned _ _); discriminate].
    destruct (write_partitioned songs_part (songs_table song_data)) eqn:Ew.
    + discriminate.
    + simpl in H. injection H as <-. rewrite <- Ew, read_back_plain by exact Hp.
      reflexivity.
  - intros [si ti an ai y du] Hne. unfold songs_row_read, pv_str. simpl in *.
    destruct ai as [a|]; simpl; auto.
    destruct (String.eqb a "") eqn:Ea; [apply String.eqb_eq in Ea; subst; contradiction|].
    reflexivity.
Qed.

(** Witness: a catalog of plain artist_ids. *)
Lemma main_overwrites_all_witness :
  Forall (fun c => pval_plain (pv_str (Catalog.artist_id c)) = true) [song_S1; song_S2] /\
  exists s', main utc_from_unixtime utc_to_timestamp ids_as_strings ids_one_partition
               [song_S1; song_S2] [play_XY] empty_sink = Done s'.
Proof.
  assert (Hplain : Forall (fun c => pval_plain (pv_str (Catalog.artist_id c)) = true)
                     [song_S1; song_S2]) by (repeat constructor).
  split; [exact Hplain|].
  apply (proj1 (main_overwrites_all utc_from_unixtime utc_to_timestamp ids_as_strings
           ids_one_partition [song_S1; song_S2] [play_XY] empty_sink Hplain)).
  vm_compute. reflexivity.
Defined.


(** A play whose artist, song or length is null matches no songs row (SQL
    equality with null is never true): the output holds the songplays row
    selected from that play alone, with null song_id and artist_id. *)
Theorem null_join_key_no_match from_unixtime to_timestamp gen
  (df : list Log.t) (song_df : list SongsRow.t) (e : Enriched.t)
  (He : In e (df_filtered from_unixtime to_timestamp df))
  (Hnull : Log.artist (Enriched.ev e) = None \/ Log.song (Enriched.ev e) = None \/
           Log.length (Enriched.ev e) = None) :
  matches join_cond song_df e = 0%nat /\
  exists r, In r (songplays_table from_unixtime to_timestamp gen df song_df) /\
    r = songplays_select (e, None) (SongplaysRow.songplay_id r) /\
    SongplaysRow.song_id r = None /\ SongplaysRow.artist_id r = None.
Proof.
  assert (Hno : forall s, join_cond e s = false).
  { intros s. unfold join_cond.
    destruct Hnull as [H|[H|H]]; rewrite H; simpl;
      rewrite ?andb_false_r; reflexivity. }
  split.
  - unfold matches. clear He. induction song_df as [|s ss IH]; simpl; auto.
    rewrite Hno. exact IH.
  - assert (Hj : In (e, None) (joined_df from_unixtime to_timestamp df song_df))
      by (apply left_outer_join_In; auto).
    destruct (with_ids_In_rev gen songplays_select _ 0 _ Hj) as [id Hid].
    eexists. split; [exact Hid|]. destruct e; simpl; auto.
Qed.

Lemma null_join_key_no_match_witness :
  In (enrich utc_from_unixtime utc_to_timestamp play_no_length)
     (df_filtered utc_from_unixtime utc_to_timestamp [play_XY; play_no_length]) /\
  Log.length play_no_length = None /\
  matches join_cond (songs_table [song_S1])
    (enrich utc_from_unixtime utc_to_timestamp play_no_length) = 0%nat.
Proof.
  assert (He : In (enrich utc_from_unixtime utc_to_timestamp play_no_length)
     (df_filtered utc_from_unixtime utc_to_timestamp [play_XY; play_no_length]))
    by (simpl; auto).
  split; [exact He|]. split; [reflexivity|].
  exact (proj1 (null_join_key_no_match utc_from_unixtime utc_to_timestamp
    ids_one_partition [play_XY; play_no_length] (songs_table [song_S1]) _ He
    (or_intror (or_intror eq_refl)))).
Defined.

Lemma songplays_have_time_row_witness :
  exists r,
    In r (songplays_table utc_from_unixtime utc_to_timestamp ids_one_partition
            [play_XY] (songs_table [song_S1])) /\
    exists e t, In e (df_filtered utc_from_unixtime utc_to_timestamp [play_XY]) /\
      In t (time_table utc_from_unixtime utc_to_timestamp [play_XY]) /\
      SongplaysRow.timestamp r = Enriched.timestamp e /\
      TimeRow.datetime t = Enriched.datetime e /\
      SongplaysRow.month r = TimeRow.Month t /\
      SongplaysRow.year r = TimeRow.year t.
Proof.
  assert (Hr : In (songplays_select
                     (enrich utc_from_unixtime utc_to_timestamp play_XY,
                      Some (songs_select song_S1)) 0)
                  (songplays_table utc_from_unixtime utc_to_timestamp
                     ids_one_partition [play_XY] (songs_table [song_S1])))
    by (vm_compute; left; reflexivity).
  exists (songplays_select (enrich utc_from_unixtime utc_to_timestamp play_XY,
                            Some (songs_select song_S1)) 0).
  split; [exact Hr|].
  exact (songplays_have_time_row utc_from_unixtime utc_to_timestamp
           ids_one_partition [play_XY] (songs_table [song_S1]) _ Hr).
Defined.
